(** * AMSynth: an amplitude-modulation voice (Tone/instrument/AMSynth.ts)

    A shallow embedding of the [AMSynth] class: its default options, the
    routing graph its constructor assembles, the envelope triggers it
    forwards to its two sub-voices and its teardown.

    Numbers are JavaScript numbers in the source; here they are rationals
    ([Q]) and signals are compared with [==].  Rounding in the rendering
    engine is outside the model. *)

From stdpp Require Import base list strings.
From Stdlib Require Import QArith Qfield Lqa Reals Qreals Lra.

#[local] Set Warnings "-register-all".
Local Open Scope Q_scope.

(** ** JavaScript values and plain objects *)

Inductive value : Type :=
| VUndef
| VNum (q : Q)
| VStr (s : string)
| VObj (fields : list (string * value)).

(** A plain object: its own enumerable properties, in insertion order. *)
Definition object : Type := list (string * value).

Module Obj.

  (** [o[k]] *)
Fixpoint get (k : string) (o : object) : option value :=
    match o with
    | [] => None
    | (k', v) :: o' => if String.eqb k k' then Some v else get k o'
    end.

  (** [o[k] = v]: an existing property keeps its position, a new one is
      appended. *)
Fixpoint set (k : string) (v : value) (o : object) : object :=
    match o with
    | [] => [(k, v)]
    | (k', v') :: o' =>
        if String.eqb k k' then (k, v) :: o' else (k', v') :: set k v o'
    end.

  (** [Object.keys(o)] *)
Definition keys (o : object) : list string := map fst o.

  (** [Object.assign(target, source)] *)
Definition assign (target source : object) : object :=
    fold_left (fun t kv => set (fst kv) (snd kv) t) source target.

  (** [o.a.b.c] along a path of property names. *)
Fixpoint path (ks : list string) (v : value) : option value :=
    match ks with
    | [] => Some v
    | k :: ks' =>
        match v with
        | VObj o => match get k o with Some v' => path ks' v' | None => None end
        | _ => None
        end
    end.

  (** A numeric property, with the fallback used when it is absent. *)
Definition num (k : string) (dflt : Q) (o : object) : Q :=
    match get k o with Some (VNum q) => q | _ => dflt end.

  (** A nested option bag; absent or non-object properties give [VUndef]. *)
Definition sub (k : string) (o : object) : value :=
    match get k o with Some v => v | None => VUndef end.

End Obj.

(** ** Collaborators whose code lives outside this file

    [getDefaults] starts from the defaults of [Monophonic],
    [OmniOscillator], [Source], [Envelope] and [ToneAudioNode] and trims
    them with [omitFromObject].  None of these is defined in AMSynth.ts, so
    they are an interface the development is parametric in. *)

Class Collaborators : Type := {
  Monophonic_getDefaults : object;
  OmniOscillator_getDefaults : object;
  Source_getDefaults : object;
  Envelope_getDefaults : object;
  ToneAudioNode_getDefaults : object;
  omitFromObject : object -> list string -> object
}.

(** ** [AMSynth.getDefaults] *)

Section Defaults.
Context `{Collaborators}.

Definition getDefaults : object :=
    Obj.assign Monophonic_getDefaults
      [ ("harmonicity", VNum 3);
        ("oscillator",
          VObj (Obj.assign
                  (omitFromObject OmniOscillator_getDefaults
                     (Obj.keys Source_getDefaults ++ ["frequency"; "detune"]))
                  [("type", VStr "sine")]));
        ("envelope",
          VObj (Obj.assign
                  (omitFromObject Envelope_getDefaults
                     (Obj.keys ToneAudioNode_getDefaults))
                  [ ("attack", VNum 0.01);
                    ("decay", VNum 0.01);
                    ("sustain", VNum 1);
                    ("release", VNum 0.5) ]));
        ("modulation",
          VObj (Obj.assign
                  (omitFromObject OmniOscillator_getDefaults
                     (Obj.keys Source_getDefaults ++ ["frequency"; "detune"]))
                  [("type", VStr "square")]));
        ("modulationEnvelope",
          VObj (Obj.assign
                  (omitFromObject Envelope_getDefaults
                     (Obj.keys ToneAudioNode_getDefaults))
                  [ ("attack", VNum 0.5);
                    ("decay", VNum 0.0);
                    ("sustain", VNum 1);
                    ("release", VNum 0.5) ])) ].

End Defaults.

(** Modelled from the spec: [optionsFromArguments] (core/util/Defaults, not
    in this file).  The spec says the construction options are all optional
    and merged over the defaults; the constructor's argument type is a
    recursive partial of the options, so nested bags are merged key by key
    and everything else is replaced. *)
Fixpoint deepMerge (target given : value) {struct given} : value :=
  match given with
  | VObj g =>
      match target with
      | VObj t =>
          VObj ((fix go (g : list (string * value)) (t : object) : object :=
                   match g with
                   | [] => t
                   | (k, gv) :: g' =>
                       go g' (Obj.set k
                                (match Obj.get k t with
                                 | Some tv => deepMerge tv gv
                                 | None => gv
                                 end) t)
                   end) g t)
      | _ => given
      end
  | _ => given
  end.

Definition optionsFromArguments (defaults : object) (arguments : list value)
  : object :=
  match arguments with
  | VObj given :: _ =>
      match deepMerge (VObj defaults) (VObj given) with
      | VObj o => o
      | _ => defaults
      end
  | _ => defaults
  end.

(** ** The audio graph

    Every node the constructor creates is a cell of a store, addressed by a
    reference; JavaScript object identity is equality of references.  The
    connections made by [connect], [chain] and [fan] are the edges. *)

Definition ref : Type := nat.
Definition Seconds : Type := Q.

(** What an envelope has been asked to do, oldest first. *)
Inductive event : Type :=
| Attack (time : Seconds) (velocity : Q)
| Release (time : Seconds).

Inductive node : Type :=
| Instrument                      (* the voice itself: the [Monophonic] base *)
| Output                          (* the voice's output port *)
| Signal (units : string) (val : Q)
| Param (val : Q)
| Multiply (factor : Q)
| Gain (gain : ref)
| AudioToGain
| OmniOscillator (options : value)
| AmplitudeEnvelope (options : value) (log : list event)
| SynthVoice (volume : Q).

Record cell : Type := Cell { kind : node; disposals : nat }.

Record graph : Type := Graph { heap : list cell; edges : list (ref * ref) }.

Definition empty_graph : graph := Graph [] [].

(** ** Errors and the construction monad *)

Inductive error : Type := InvalidConfiguration | UseAfterDispose.

Inductive result (A : Type) : Type :=
| Ok (a : A)
| Throw (e : error).
Arguments Ok {A} a.
Arguments Throw {A} e.

Definition M (A : Type) : Type := graph -> result (A * graph).

Definition ret {A} (a : A) : M A := fun g => Ok (a, g).

Definition bind {A B} (m : M A) (k : A -> M B) : M B :=
  fun g => match m g with
           | Ok (a, g') => k a g'
           | Throw e => Throw e
           end.

Definition throw {A} (e : error) : M A := fun _ => Throw e.

Declare Scope graph_scope.
Delimit Scope graph_scope with graph.
Notation "x <- m ;; k" := (bind m (fun x => k))
  (at level 100, m at next level, right associativity) : graph_scope.
Notation "m ;; k" := (bind m (fun _ => k))
  (at level 100, right associativity) : graph_scope.
Local Open Scope graph_scope.

(** [new X(...)]: a fresh cell at the end of the store. *)
Definition alloc (n : node) : M ref :=
  fun g => Ok (length (heap g), Graph (heap g ++ [Cell n 0]) (edges g)).

(** In-place mutation of the object behind a reference. *)
Definition update (r : ref) (f : cell -> cell) : M unit :=
  fun g => Ok (tt, Graph (alter f r (heap g)) (edges g)).

(** [src.connect(dst)] *)
Definition connect (src dst : ref) : M unit :=
  fun g => Ok (tt, Graph (heap g) (edges g ++ [(src, dst)])).

(** [src.chain(n1, n2, ...)]: [src -> n1 -> n2 -> ...] *)
Fixpoint chain (src : ref) (nodes : list ref) : M unit :=
  match nodes with
  | [] => ret tt
  | n :: nodes' => connect src n ;; chain n nodes'
  end.

(** [src.fan(n1, n2, ...)]: [src -> n1], [src -> n2], ... *)
Fixpoint fan (src : ref) (nodes : list ref) : M unit :=
  match nodes with
  | [] => ret tt
  | n :: nodes' => connect src n ;; fan src nodes'
  end.

(** [x.dispose()] on a primitive node: the release is recorded on the
    object itself. *)
Definition release (r : ref) : M unit :=
  update r (fun c => Cell (kind c) (S (disposals c))).

(** ** Primitive nodes (signal/Signal, signal/Multiply, signal/AudioToGain,
    core/context/Gain)

    Only their constructors' call sites are in AMSynth.ts. *)

(** [new Signal({ units, value })] *)
Definition Signal_new (units : string) (val : Q) : M ref :=
  alloc (Signal units val).

(** [signal.value = v] *)
Definition Signal_set_value (r : ref) (v : Q) : M unit :=
  update r (fun c => match kind c with
                     | Signal u _ => Cell (Signal u v) (disposals c)
                     | _ => c
                     end).

(** Modelled from the spec: the range check of the harmonicity control
    (the value setter of [Multiply], signal/Multiply.ts, is not in this
    file).  The spec says harmonicity is a ratio >= 0, "clamped to
    non-negative range at the control layer", and that "out-of-range values
    are rejected at assignment rather than produced as a processing
    failure". *)
Definition Multiply_accepts (v : Q) : bool := Qle_bool 0 v.

(** [new Multiply({ value })]: a malformed option value aborts the
    construction. *)
Definition Multiply_new (val : Q) : M ref :=
  if Multiply_accepts val then alloc (Multiply val)
  else throw InvalidConfiguration.

(** [multiply.value = v] *)
Definition Multiply_set_value (r : ref) (v : Q) : M unit :=
  if Multiply_accepts v
  then update r (fun c => match kind c with
                          | Multiply _ => Cell (Multiply v) (disposals c)
                          | _ => c
                          end)
  else throw InvalidConfiguration.

(** [new AudioToGain()] *)
Definition AudioToGain_new : M ref := alloc AudioToGain.

(** Modelled from the spec: the transfer function of the Scaling Stage
    ([AudioToGain], signal/AudioToGain.ts, is not in this file): "a
    stateless transform mapping a bipolar signal range [-1, 1] to a
    unipolar range [0, 1] (i.e., y = (x + 1) / 2)". *)
Definition scale (x : Q) : Q := (x + 1) / 2.

Module Gain.

(** A gain node and its [gain] parameter, an object of its own. *)
Record t : Type := Make { self : ref; gain : ref }.

(** [new Gain({ gain })] *)
Definition new (val : Q) : M t :=
  p <- alloc (Param val) ;;
  n <- alloc (Gain p) ;;
  ret (Make n p).

Definition dispose (n : t) : M unit := release (self n).

End Gain.

(** ** The sub-voice ([Synth], instrument/Synth.ts)

    Modelled from the spec: [Synth] is not in this file.  The spec's
    Sub-Voice is "an oscillator-plus-envelope unit exposing a controllable
    pitch input, a detune input, an audio-rate output, and attack/release
    triggers", "constructed with oscillator-shape options and
    envelope-shape options plus a fixed output attenuation"; its triggers
    "forward to its internal envelope" and have "no error conditions". *)
Module Synth.

Record t : Type := Make {
  self : ref;          (* the voice node: its audio output port *)
  oscillator : ref;
  envelope : ref;
  frequency : ref;     (* pitch input *)
  detune : ref         (* detune input, in cents *)
}.

(** [new Synth({ oscillator, envelope, volume })] *)
Definition new (oscillator_options envelope_options : value) (volume : Q)
  : M t :=
  o <- alloc (OmniOscillator oscillator_options) ;;
  e <- alloc (AmplitudeEnvelope envelope_options []) ;;
  f <- Signal_new "frequency" 0 ;;
  d <- Signal_new "cents" 0 ;;
  s <- alloc (SynthVoice volume) ;;
  ret (Make s o e f d).

Definition record (ev : event) (c : cell) : cell :=
  match kind c with
  | AmplitudeEnvelope opts log =>
      Cell (AmplitudeEnvelope opts (log ++ [ev])) (disposals c)
  | _ => c
  end.

Definition _triggerEnvelopeAttack (s : t) (time : Seconds) (velocity : Q)
  : M unit :=
  update (envelope s) (record (Attack time velocity)).

Definition _triggerEnvelopeRelease (s : t) (time : Seconds) : M unit :=
  update (envelope s) (record (Release time)).

Definition dispose (s : t) : M unit := release (self s).

End Synth.

(** ** The base class ([Monophonic], instrument/Monophonic.ts)

    Modelled from the spec: the base class is not in this file.  It
    contributes the voice object itself and its output port, and "the base
    class's own teardown". *)
Module Monophonic.

Definition new : M (ref * ref) :=
  this <- alloc Instrument ;;
  out <- alloc Output ;;
  ret (this, out).

Definition dispose (this output : ref) : M unit :=
  release this ;; release output.

End Monophonic.

(** ** The voice *)

Record AMSynth : Type := {
  this : ref;
  output : ref;
  _carrier : Synth.t;
  _modulator : Synth.t;
  oscillator : ref;
  envelope : ref;
  modulation : ref;
  modulationEnvelope : ref;
  frequency : ref;
  detune : ref;
  harmonicity : ref;
  _modulationNode : Gain.t;
  _modulationScale : ref
}.

Section Voice.
Context `{Collaborators}.

(** [new AMSynth(...arguments)] *)
Definition constructor (arguments : list value) : M AMSynth :=
  let options := optionsFromArguments getDefaults arguments in
  base <- Monophonic.new ;;
  carrier <- Synth.new (Obj.sub "oscillator" options)
                       (Obj.sub "envelope" options) (-10) ;;
  modulator <- Synth.new (Obj.sub "modulation" options)
                         (Obj.sub "modulationEnvelope" options) (-10) ;;
  freq <- Signal_new "frequency" 0 ;;
  det <- Signal_new "cents" (Obj.num "detune" 0 options) ;;
  harm <- Multiply_new (Obj.num "harmonicity" 0 options) ;;
  modulationNode <- Gain.new 0 ;;
  modulationScale <- AudioToGain_new ;;
  (* control the two voices frequency *)
  connect freq (Synth.frequency carrier) ;;
  chain freq [harm; Synth.frequency modulator] ;;
  fan det [Synth.detune carrier; Synth.detune modulator] ;;
  chain (Synth.self modulator) [modulationScale; Gain.gain modulationNode] ;;
  chain (Synth.self carrier) [Gain.self modulationNode; snd base] ;;
  ret {| this := fst base;
         output := snd base;
         _carrier := carrier;
         _modulator := modulator;
         oscillator := Synth.oscillator carrier;
         envelope := Synth.envelope carrier;
         modulation := Synth.oscillator modulator;
         modulationEnvelope := Synth.envelope modulator;
         frequency := freq;
         detune := det;
         harmonicity := harm;
         _modulationNode := modulationNode;
         _modulationScale := modulationScale |}.

End Voice.

(** Trigger the attack portion of the note *)
Definition _triggerEnvelopeAttack (am : AMSynth) (time : Seconds)
  (velocity : Q) : M unit :=
  Synth._triggerEnvelopeAttack (_carrier am) time velocity ;;
  Synth._triggerEnvelopeAttack (_modulator am) time velocity.

(** Trigger the release portion of the note *)
Definition _triggerEnvelopeRelease (am : AMSynth) (time : Seconds)
  : M AMSynth :=
  Synth._triggerEnvelopeRelease (_carrier am) time ;;
  Synth._triggerEnvelopeRelease (_modulator am) time ;;
  ret am.

Definition dispose (am : AMSynth) : M AMSynth :=
  Monophonic.dispose (this am) (output am) ;;
  Synth.dispose (_carrier am) ;;
  Synth.dispose (_modulator am) ;;
  release (frequency am) ;;
  release (detune am) ;;
  release (harmonicity am) ;;
  release (_modulationScale am) ;;
  Gain.dispose (_modulationNode am) ;;
  ret am.

(** ** What the caller can do with a voice between construction and
    disposal *)

(** The four sub-objects published for inspection and fine-tuning. *)
Inductive part : Type :=
| Oscillator | Envelope | Modulation | ModulationEnvelope.

Definition published (am : AMSynth) (w : part) : ref :=
  match w with
  | Oscillator => oscillator am
  | Envelope => envelope am
  | Modulation => modulation am
  | ModulationEnvelope => modulationEnvelope am
  end.

(** The object a sub-voice keeps for the same role. *)
Definition owned (am : AMSynth) (w : part) : ref :=
  match w with
  | Oscillator => Synth.oscillator (_carrier am)
  | Envelope => Synth.envelope (_carrier am)
  | Modulation => Synth.oscillator (_modulator am)
  | ModulationEnvelope => Synth.envelope (_modulator am)
  end.

(** [x[k] = v] on an oscillator or an envelope: a shape parameter is
    changed in place. *)
Definition put_shape (k : string) (v : value) (o : value) : value :=
  match o with
  | VObj fields => VObj (Obj.set k v fields)
  | _ => VObj [(k, v)]
  end.

Definition set_shape (k : string) (v : value) (c : cell) : cell :=
  match kind c with
  | OmniOscillator o => Cell (OmniOscillator (put_shape k v o)) (disposals c)
  | AmplitudeEnvelope o log =>
      Cell (AmplitudeEnvelope (put_shape k v o) log) (disposals c)
  | _ => c
  end.

Inductive op : Type :=
| SetFrequency (f : Q)                       (* [frequency.value = f] *)
| SetDetune (d : Q)                          (* [detune.value = d] *)
| SetHarmonicity (h : Q)                     (* [harmonicity.value = h] *)
| SetShape (w : part) (k : string) (v : value)
| TriggerAttack (time : Seconds) (velocity : Q)
| TriggerRelease (time : Seconds).

Definition step (am : AMSynth) (o : op) : M unit :=
  match o with
  | SetFrequency f => Signal_set_value (frequency am) f
  | SetDetune d => Signal_set_value (detune am) d
  | SetHarmonicity h => Multiply_set_value (harmonicity am) h
  | SetShape w k v => update (published am w) (set_shape k v)
  | TriggerAttack time velocity => _triggerEnvelopeAttack am time velocity
  | TriggerRelease time => _triggerEnvelopeRelease am time ;; ret tt
  end.

Fixpoint run (am : AMSynth) (os : list op) : M unit :=
  match os with
  | [] => ret tt
  | o :: os' => step am o ;; run am os'
  end.

(** The triggers among a sequence of calls, in order. *)
Fixpoint triggers (os : list op) : list event :=
  match os with
  | [] => []
  | TriggerAttack time velocity :: os' => Attack time velocity :: triggers os'
  | TriggerRelease time :: os' => Release time :: triggers os'
  | _ :: os' => triggers os'
  end.

(** A voice's life up to disposal: built in a fresh context, then driven
    by a sequence of calls. *)
Definition session `{Collaborators} (arguments : list value) (os : list op)
  : result (AMSynth * graph) :=
  (am <- constructor arguments ;; run am os ;; ret am) empty_graph.

(** The resources [dispose] hands back besides the base class's own. *)
Definition owned_resources (am : AMSynth) : list ref :=
  [ Synth.self (_carrier am);
    Synth.self (_modulator am);
    frequency am;
    detune am;
    harmonicity am;
    _modulationScale am;
    Gain.self (_modulationNode am) ].

(** ** Reading the store *)

Definition node_at (g : graph) (r : ref) : option node :=
  kind <$> heap g !! r.

Definition disposals_at (g : graph) (r : ref) : option nat :=
  disposals <$> heap g !! r.

(** The current value of a control ([signal.value]). *)
Definition value_at (g : graph) (r : ref) : option Q :=
  match node_at g r with
  | Some (Signal _ v) | Some (Param v) | Some (Multiply v) => Some v
  | _ => None
  end.

(** The triggers an envelope has received. *)
Definition log_at (g : graph) (r : ref) : option (list event) :=
  match node_at g r with
  | Some (AmplitudeEnvelope _ log) => Some log
  | _ => None
  end.

(** The options an oscillator or envelope was built with. *)
Definition options_at (g : graph) (r : ref) : option value :=
  match node_at g r with
  | Some (OmniOscillator o) | Some (AmplitudeEnvelope o _) => Some o
  | _ => None
  end.

(** One shape parameter of an oscillator or envelope ([x[k]]). *)
Definition shape_at (g : graph) (r : ref) (k : string) : option value :=
  match options_at g r with
  | Some o => Obj.path [k] o
  | None => None
  end.

(** ** Signals carried by the graph

    Modelled from the spec: the rendering engine is not in this file.  A
    control outputs its own value plus whatever is connected into it, a
    multiplier outputs its input times its factor, the scaling stage
    applies [scale], a gain node outputs its input times its gain, and the
    output port passes its input through.  The sample a sub-voice puts out
    is given by [audio]. *)

Fixpoint sources (r : ref) (es : list (ref * ref)) : list ref :=
  match es with
  | [] => []
  | (a, b) :: es' => if Nat.eqb b r then a :: sources r es' else sources r es'
  end.

Fixpoint total (xs : list (option Q)) : option Q :=
  match xs with
  | [] => Some 0
  | x :: xs' =>
      match x, total xs' with
      | Some a, Some b => Some (a + b)
      | _, _ => None
      end
  end.

Section Signals.
Variable audio : ref -> Q.
Variable g : graph.

Fixpoint out (fuel : nat) (r : ref) : option Q :=
  match fuel with
  | O => None
  | S fuel' =>
      let arriving := total (map (out fuel') (sources r (edges g))) in
      match node_at g r with
      | Some (Signal _ v) | Some (Param v) =>
          match arriving with Some s => Some (v + s) | None => None end
      | Some (Multiply f) =>
          match arriving with Some s => Some (s * f) | None => None end
      | Some AudioToGain =>
          match arriving with Some s => Some (scale s) | None => None end
      | Some (Gain p) =>
          match arriving, out fuel' p with
          | Some s, Some gv => Some (s * gv)
          | _, _ => None
          end
      | Some Output => arriving
      | Some (SynthVoice _) => Some (audio r)
      | _ => None
      end
  end.

(** The graph is acyclic, so one unit of fuel per node is enough. *)
Definition fuel_for : nat := S (length (heap g)).

(** The signal a node puts out. *)
Definition signal (r : ref) : option Q := out fuel_for r.

(** The signal reaching a node's input: the sum of what is connected
    into it. *)
Definition input (r : ref) : option Q :=
  total (map (out fuel_for) (sources r (edges g))).

End Signals.

(** Modelled from the spec: how a sub-voice's oscillator turns its pitch
    input and its detune input into the pitch it sounds is not in this
    file.  Detune is in cents, and the spec fixes 1200 cents as exactly one
    octave: the pitch is [base * 2 ^ (cents / 1200)]. *)
Definition effective_pitch (base cents : Q) : R :=
  (Q2R base * Rpower 2 (Q2R cents / 1200))%R.

(** A concrete set of collaborators, to run the model: the base classes
    contribute nothing of their own and [omitFromObject] drops the listed
    keys. *)
Definition omit (o : object) (ks : list string) : object :=
  List.filter (fun kv => negb (existsb (String.eqb (fst kv)) ks)) o.

#[local] Instance bare : Collaborators := {|
  Monophonic_getDefaults := [("detune", VNum 0)];
  OmniOscillator_getDefaults := [("type", VStr "sine"); ("frequency", VNum 440); ("detune", VNum 0)];
  Source_getDefaults := [];
  Envelope_getDefaults := [("attack", VNum 0.01); ("decay", VNum 0.1); ("sustain", VNum 0.5); ("release", VNum 1)];
  ToneAudioNode_getDefaults := [];
  omitFromObject := omit
|}.


(** The graph with nothing connected into [r]. *)
Definition undriven (r : ref) (g : graph) : graph :=
  Graph (heap g)
        (List.filter (fun e => negb (Nat.eqb (snd e) r)) (edges g)).

(** ** The layout of a voice built in a fresh context

    The constructor allocates the same eighteen cells in the same order
    whatever its arguments; later calls change what the cells hold, never
    where they are or how they are connected.  [layout] is that store as a
    function of what can change. *)

Record contents : Type := {
  c_oscillator : value;
  c_envelope : value;
  c_modulation : value;
  c_modulationEnvelope : value;
  c_frequency : Q;
  c_detune : Q;
  c_harmonicity : Q;
  c_carrier_log : list event;
  c_modulator_log : list event;
  c_disposals : ref -> nat
}.

Definition layout (c : contents) : graph :=
  let n (i : ref) (k : node) := Cell k (c_disposals c i) in
  Graph
    [ n 0%nat Instrument;
      n 1%nat Output;
      n 2%nat (OmniOscillator (c_oscillator c));
      n 3%nat (AmplitudeEnvelope (c_envelope c) (c_carrier_log c));
      n 4%nat (Signal "frequency" 0);
      n 5%nat (Signal "cents" 0);
      n 6%nat (SynthVoice (-10));
      n 7%nat (OmniOscillator (c_modulation c));
      n 8%nat (AmplitudeEnvelope (c_modulationEnvelope c) (c_modulator_log c));
      n 9%nat (Signal "frequency" 0);
      n 10%nat (Signal "cents" 0);
      n 11%nat (SynthVoice (-10));
      n 12%nat (Signal "frequency" (c_frequency c));
      n 13%nat (Signal "cents" (c_detune c));
      n 14%nat (Multiply (c_harmonicity c));
      n 15%nat (Param 0);
      n 16%nat (Gain 15%nat);
      n 17%nat AudioToGain ]
    [ (12, 4); (12, 14); (14, 9); (13, 5); (13, 10);
      (11, 17); (17, 15); (6, 16); (16, 1) ]%nat.

Definition handles : AMSynth := {|
  this := 0%nat;
  output := 1%nat;
  _carrier := Synth.Make 6%nat 2%nat 3%nat 4%nat 5%nat;
  _modulator := Synth.Make 11%nat 7%nat 8%nat 9%nat 10%nat;
  oscillator := 2%nat;
  envelope := 3%nat;
  modulation := 7%nat;
  modulationEnvelope := 8%nat;
  frequency := 12%nat;
  detune := 13%nat;
  harmonicity := 14%nat;
  _modulationNode := Gain.Make 16%nat 15%nat;
  _modulationScale := 17%nat
|}.

Definition fresh (options : object) : contents := {|
  c_oscillator := Obj.sub "oscillator" options;
  c_envelope := Obj.sub "envelope" options;
  c_modulation := Obj.sub "modulation" options;
  c_modulationEnvelope := Obj.sub "modulationEnvelope" options;
  c_frequency := 0;
  c_detune := Obj.num "detune" 0 options;
  c_harmonicity := Obj.num "harmonicity" 0 options;
  c_carrier_log := [];
  c_modulator_log := [];
  c_disposals := fun _ => 0%nat
|}.

(** What each call does to the contents. *)
Definition after (o : op) (c : contents) : result contents :=
  match o with
  | SetFrequency f =>
      Ok {| c_oscillator := c_oscillator c; c_envelope := c_envelope c;
            c_modulation := c_modulation c;
            c_modulationEnvelope := c_modulationEnvelope c;
            c_frequency := f; c_detune := c_detune c;
            c_harmonicity := c_harmonicity c;
            c_carrier_log := c_carrier_log c;
            c_modulator_log := c_modulator_log c;
            c_disposals := c_disposals c |}
  | SetDetune d =>
      Ok {| c_oscillator := c_oscillator c; c_envelope := c_envelope c;
            c_modulation := c_modulation c;
            c_modulationEnvelope := c_modulationEnvelope c;
            c_frequency := c_frequency c; c_detune := d;
            c_harmonicity := c_harmonicity c;
            c_carrier_log := c_carrier_log c;
            c_modulator_log := c_modulator_log c;
            c_disposals := c_disposals c |}
  | SetHarmonicity h =>
      if Multiply_accepts h then
        Ok {| c_oscillator := c_oscillator c; c_envelope := c_envelope c;
              c_modulation := c_modulation c;
              c_modulationEnvelope := c_modulationEnvelope c;
              c_frequency := c_frequency c; c_detune := c_detune c;
              c_harmonicity := h;
              c_carrier_log := c_carrier_log c;
              c_modulator_log := c_modulator_log c;
              c_disposals := c_disposals c |}
      else Throw InvalidConfiguration
  | SetShape w k v =>
      let on (w' : part) (o : value) :=
        match w, w' with
        | Oscillator, Oscillator | Envelope, Envelope
        | Modulation, Modulation
        | ModulationEnvelope, ModulationEnvelope => put_shape k v o
        | _, _ => o
        end in
      Ok {| c_oscillator := on Oscillator (c_oscillator c);
            c_envelope := on Envelope (c_envelope c);
            c_modulation := on Modulation (c_modulation c);
            c_modulationEnvelope :=
              on ModulationEnvelope (c_modulationEnvelope c);
            c_frequency := c_frequency c; c_detune := c_detune c;
            c_harmonicity := c_harmonicity c;
            c_carrier_log := c_carrier_log c;
            c_modulator_log := c_modulator_log c;
            c_disposals := c_disposals c |}
  | TriggerAttack time velocity =>
      Ok {| c_oscillator := c_oscillator c; c_envelope := c_envelope c;
            c_modulation := c_modulation c;
            c_modulationEnvelope := c_modulationEnvelope c;
            c_frequency := c_frequency c; c_detune := c_detune c;
            c_harmonicity := c_harmonicity c;
            c_carrier_log := c_carrier_log c ++ [Attack time velocity];
            c_modulator_log := c_modulator_log c ++ [Attack time velocity];
            c_disposals := c_disposals c |}
  | TriggerRelease time =>
      Ok {| c_oscillator := c_oscillator c; c_envelope := c_envelope c;
            c_modulation := c_modulation c;
            c_modulationEnvelope := c_modulationEnvelope c;
            c_frequency := c_frequency c; c_detune := c_detune c;
            c_harmonicity := c_harmonicity c;
            c_carrier_log := c_carrier_log c ++ [Release time];
            c_modulator_log := c_modulator_log c ++ [Release time];
            c_disposals := c_disposals c |}
  end.

(** The cells [dispose] releases, in the order it releases them. *)
Definition released_by_dispose : list ref :=
  [0; 1; 6; 11; 12; 13; 14; 17; 16]%nat.

Definition after_dispose (c : contents) : contents :=
  {| c_oscillator := c_oscillator c; c_envelope := c_envelope c;
     c_modulation := c_modulation c;
     c_modulationEnvelope := c_modulationEnvelope c;
     c_frequency := c_frequency c; c_detune := c_detune c;
     c_harmonicity := c_harmonicity c;
     c_carrier_log := c_carrier_log c;
     c_modulator_log := c_modulator_log c;
     c_disposals := fun i =>
       if existsb (Nat.eqb i) released_by_dispose
       then S (c_disposals c i) else c_disposals c i |}.

Fixpoint after_all (os : list op) (c : contents) : result contents :=
  match os with
  | [] => Ok c
  | o :: os' =>
      match after o c with
      | Ok c' => after_all os' c'
      | Throw e => Throw e
      end
  end.

(** * Properties *)

Lemma step_layout (o : op) (c : contents) :
  step handles o (layout c) =
  match after o c with
  | Ok c' => Ok (tt, layout c')
  | Throw e => Throw e
  end.
Proof.
  destruct o as [f|d|h|w k v|t v|t]; cbn [after step].
  - reflexivity.
  - reflexivity.
  - unfold Multiply_set_value. destruct (Multiply_accepts h); reflexivity.
  - destruct w; reflexivity.
  - reflexivity.
  - reflexivity.
Qed.

Lemma dispose_layout (c : contents) :
  dispose handles (layout c) = Ok (handles, layout (after_dispose c)).
Proof. reflexivity. Qed.

Section ConstructorLayout.
Context `{Collaborators}.

Lemma constructor_layout (arguments : list value) :
  constructor arguments empty_graph =
  let options := optionsFromArguments getDefaults arguments in
  if Multiply_accepts (Obj.num "harmonicity" 0 options)
  then Ok (handles, layout (fresh options))
  else Throw InvalidConfiguration.
Proof.
  cbv zeta. unfold constructor.
  set (options := optionsFromArguments getDefaults arguments).
  unfold bind at 1 2 3 4 5 6. cbn -[Obj.sub Obj.num Multiply_accepts bind].
  unfold Multiply_new, bind at 1.
  destruct (Multiply_accepts _); reflexivity.
Qed.

End ConstructorLayout.

Lemma run_layout (os : list op) (c : contents) :
  run handles os (layout c) =
  match after_all os c with
  | Ok c' => Ok (tt, layout c')
  | Throw e => Throw e
  end.
Proof.
  revert c. induction os as [|o os IH]; intros c; [reflexivity|].
  cbn [run after_all]. unfold bind. rewrite step_layout.
  destruct (after o c) as [c'|e]; [apply IH | reflexivity].
Qed.

Lemma after_all_logs (os : list op) (c c' : contents) :
  after_all os c = Ok c' ->
  c_carrier_log c' = c_carrier_log c ++ triggers os /\
  c_modulator_log c' = c_modulator_log c ++ triggers os.
Proof.
  revert c. induction os as [|o os IH]; intros c E; cbn in E.
  - inversion E; subst. cbn. by rewrite !app_nil_r.
  - destruct o as [f|d|h|w k v|t v|t]; cbn in E;
      try (destruct (Multiply_accepts h); [|discriminate]);
      apply IH in E; cbn in E; cbn [triggers];
      rewrite <- ?app_assoc in E; exact E.
Qed.

Lemma after_all_disposals (os : list op) (c c' : contents) :
  after_all os c = Ok c' -> c_disposals c' = c_disposals c.
Proof.
  revert c. induction os as [|o os IH]; intros c E; cbn in E.
  - by inversion E.
  - destruct o as [f|d|h|w k v|t v|t]; cbn in E;
      try (destruct (Multiply_accepts h); [|discriminate]);
      apply IH in E; exact E.
Qed.

Lemma after_all_harmonicity (os : list op) (c c' : contents) :
  after_all os c = Ok c' ->
  Multiply_accepts (c_harmonicity c) = true ->
  Multiply_accepts (c_harmonicity c') = true.
Proof.
  revert c. induction os as [|o os IH]; intros c E A; cbn in E.
  - by inversion E; subst.
  - destruct o as [f|d|h|w k v|t v|t]; cbn in E;
      try (destruct (Multiply_accepts h) eqn:Eh; [|discriminate]);
      apply IH in E; auto.
Qed.

Section Sessions.
Context `{Collaborators}.

(** Every session that gets as far as a voice yields the same handles and a
    store in the layout above. *)
Lemma session_layout (arguments : list value) (os : list op)
  (am : AMSynth) (g : graph) :
  session arguments os = Ok (am, g) ->
  am = handles /\
  exists c,
    g = layout c /\
    Multiply_accepts
      (Obj.num "harmonicity" 0 (optionsFromArguments getDefaults arguments))
      = true /\
    after_all os (fresh (optionsFromArguments getDefaults arguments)) = Ok c.
Proof.
  unfold session, bind. rewrite constructor_layout. cbv zeta.
  destruct (Multiply_accepts _) eqn:A; [|discriminate].
  rewrite run_layout.
  destruct (after_all os _) as [c|e] eqn:E; [|discriminate].
  unfold ret. intros [= <- <-]. eauto.
Qed.

End Sessions.

(** *** Objects *)

Lemma get_set_eq (k : string) (v : value) (o : object) :
  Obj.get k (Obj.set k v o) = Some v.
Proof.
  induction o as [|[k' v'] o IH]; cbn.
  - by rewrite String.eqb_refl.
  - destruct (String.eqb k k') eqn:E; cbn; rewrite ?String.eqb_refl, ?E; done.
Qed.

Lemma get_set_ne (k k' : string) (v : value) (o : object) :
  String.eqb k k' = false ->
  Obj.get k (Obj.set k' v o) = Obj.get k o.
Proof.
  intros N. induction o as [|[k1 v1] o IH]; cbn.
  - by rewrite N.
  - destruct (String.eqb k' k1) eqn:E; cbn.
    + apply String.eqb_eq in E as <-. by rewrite N.
    + by rewrite IH.
Qed.

(** Looks a path up in [getDefaults]: every key the source assigns is found
    whatever the collaborators contribute. *)
Ltac default_lookup :=
  unfold getDefaults, Obj.assign;
  cbn [fold_left fst snd Obj.path Obj.num Obj.sub];
  repeat (rewrite ?get_set_eq; rewrite ?get_set_ne by reflexivity);
  try reflexivity.

Section DefaultValues.
Context `{Collaborators}.

Lemma getDefaults_harmonicity :
  Obj.get "harmonicity" getDefaults = Some (VNum 3).
Proof. default_lookup. Qed.

Lemma no_arguments : optionsFromArguments getDefaults [] = getDefaults.
Proof. reflexivity. Qed.

End DefaultValues.

(** *** Signals in the layout *)

Lemma layout_pitch_inputs (audio : ref -> Q) (c : contents) :
  exists pc pm,
    input audio (layout c) 4%nat = Some pc /\ pc == c_frequency c /\
    input audio (layout c) 9%nat = Some pm /\
    pm == c_frequency c * c_harmonicity c.
Proof.
  cbv -[Qplus Qmult Qdiv Qeq c_frequency c_harmonicity].
  eexists _, _. split_and!; try reflexivity; ring.
Qed.

Lemma layout_detune_inputs (audio : ref -> Q) (c : contents) :
  exists dc dm,
    input audio (layout c) 5%nat = Some dc /\ dc == c_detune c /\
    input audio (layout c) 10%nat = Some dm /\ dm == c_detune c.
Proof.
  cbv -[Qplus Qmult Qdiv Qeq c_detune].
  eexists _, _. split_and!; try reflexivity; ring.
Qed.

Lemma layout_gain_input (audio : ref -> Q) (c : contents) :
  exists y,
    input audio (layout c) 15%nat = Some y /\ y == (audio 11%nat + 1) / 2.
Proof.
  cbv -[Qplus Qmult Qdiv Qeq].
  eexists. split; [reflexivity | field].
Qed.

Lemma layout_output (audio : ref -> Q) (c : contents) :
  exists o,
    signal audio (layout c) 1%nat = Some o /\
    o == audio 6%nat * ((audio 11%nat + 1) / 2).
Proof.
  cbv -[Qplus Qmult Qdiv Qeq].
  eexists. split; [reflexivity | field].
Qed.

Lemma layout_output_undriven (audio : ref -> Q) (c : contents) :
  exists o,
    signal audio (undriven 15%nat (layout c)) 1%nat = Some o /\ o == 0.
Proof.
  cbv -[Qplus Qmult Qdiv Qeq].
  eexists. split; [reflexivity | ring].
Qed.

Lemma half (y : Q) : y / 2 == y * (1 # 2).
Proof. field. Qed.

Lemma Q2R_1200 : Q2R 1200 = 1200%R.
Proof. unfold Q2R. cbn. lra. Qed.

Lemma one_octave (base cents : Q) :
  cents == 1200 ->
  effective_pitch base cents = (2 * effective_pitch base 0)%R.
Proof.
  intros E. unfold effective_pitch. rewrite (Qeq_eqR _ _ E), Q2R_1200.
  replace (1200 / 1200)%R with 1%R by lra.
  rewrite Rpower_1 by lra.
  replace (Q2R 0 / 1200)%R with 0%R by (unfold Q2R; cbn; lra).
  rewrite Rpower_O by lra. lra.
Qed.

(** * The claims *)

(** C1. Whatever frequency f and harmonicity h the voice's controls hold,
    after any sequence of calls, the signal reaching the carrier's pitch
    input is f and the signal reaching the modulator's pitch input is
    f * h: the frequency control feeds the carrier directly and feeds the
    modulator through the harmonicity multiplier, and the relation holds
    whenever either value changes, with or without a trigger.  With the
    default harmonicity and frequency set to 440 the carrier's pitch input
    is 440 and the modulator's is 1320. *)
Theorem modulator_pitch_is_frequency_times_harmonicity `{Collaborators} :
  (forall (arguments : list value) (os : list op) (am : AMSynth) (g : graph)
          (audio : ref -> Q),
      session arguments os = Ok (am, g) ->
      sources (Synth.frequency (_carrier am)) (edges g) = [frequency am] /\
      sources (harmonicity am) (edges g) = [frequency am] /\
      sources (Synth.frequency (_modulator am)) (edges g) = [harmonicity am] /\
      exists f h pc pm,
        value_at g (frequency am) = Some f /\
        value_at g (harmonicity am) = Some h /\
        input audio g (Synth.frequency (_carrier am)) = Some pc /\
        pc == f /\
        input audio g (Synth.frequency (_modulator am)) = Some pm /\
        pm == f * h) /\
  (exists (am : AMSynth) (g : graph),
      session [] [TriggerAttack 0 1; SetFrequency 440] = Ok (am, g) /\
      forall audio : ref -> Q,
      exists pc pm,
        input audio g (Synth.frequency (_carrier am)) = Some pc /\
        pc == 440 /\
        input audio g (Synth.frequency (_modulator am)) = Some pm /\
        pm == 1320).
Proof.
  split.
  - intros arguments os am g audio S.
    apply session_layout in S as (-> & c & -> & _ & _).
    split_and!; try reflexivity.
    destruct (layout_pitch_inputs audio c) as (pc & pm & Hc & Ec & Hm & Em).
    exists (c_frequency c), (c_harmonicity c), pc, pm.
    split_and!; try reflexivity; assumption.
  - eexists handles, (layout _). split.
    + unfold session, bind. rewrite constructor_layout, no_arguments.
      cbv zeta. unfold Obj.num at 1. rewrite getDefaults_harmonicity.
      change (Multiply_accepts 3) with true. cbv iota.
      rewrite run_layout. cbn [after_all after]. reflexivity.
    + intros audio.
      match goal with
      | |- context [layout ?c] =>
          destruct (layout_pitch_inputs audio c)
            as (pc & pm & Hc & Ec & Hm & Em)
      end.
      exists pc, pm. cbn [c_frequency c_harmonicity fresh] in Ec, Em.
      unfold Obj.num in Em. rewrite getDefaults_harmonicity in Em.
      split_and!; [exact Hc | exact Ec | exact Hm |].
      rewrite Em. reflexivity.
Qed.

(** C3. Every attack trigger (time, velocity) and every release trigger
    (time) the voice receives is forwarded with the same arguments, in the
    same call, to the carrier's envelope and to the modulator's envelope:
    after any sequence of calls, retriggers included, both envelopes have
    received exactly the same triggers, the ones issued, in order. *)
Theorem triggers_reach_both_envelopes `{Collaborators}
  (arguments : list value) (os : list op) (am : AMSynth) (g : graph) :
  session arguments os = Ok (am, g) ->
  log_at g (Synth.envelope (_carrier am)) = Some (triggers os) /\
  log_at g (Synth.envelope (_modulator am)) = Some (triggers os) /\
  forall (time : Seconds) (velocity : Q),
    (exists g',
        _triggerEnvelopeAttack am time velocity g = Ok (tt, g') /\
        log_at g' (Synth.envelope (_carrier am))
          = Some (triggers os ++ [Attack time velocity]) /\
        log_at g' (Synth.envelope (_modulator am))
          = Some (triggers os ++ [Attack time velocity])) /\
    (exists g',
        _triggerEnvelopeRelease am time g = Ok (am, g') /\
        log_at g' (Synth.envelope (_carrier am))
          = Some (triggers os ++ [Release time]) /\
        log_at g' (Synth.envelope (_modulator am))
          = Some (triggers os ++ [Release time])).
Proof.
  intros S. apply session_layout in S as (-> & c & -> & _ & E).
  apply after_all_logs in E as [EC EM]. cbn in EC, EM.
  split_and!.
  - cbn. by rewrite EC.
  - cbn. by rewrite EM.
  - intros time velocity. split; eexists; (split; [reflexivity|]);
      cbn; rewrite ?EC, ?EM; done.
Qed.

Lemma triggers_reach_both_envelopes_witness :
  exists am g,
    session (H := bare) []
      [TriggerAttack 0 1; SetFrequency 440; TriggerAttack 0.25 0.5;
       TriggerRelease 1] = Ok (am, g) /\
    log_at g (Synth.envelope (_carrier am))
      = Some [Attack 0 1; Attack 0.25 0.5; Release 1] /\
    log_at g (Synth.envelope (_modulator am))
      = Some [Attack 0 1; Attack 0.25 0.5; Release 1].
Proof.
  eassert (E : session (H := bare) []
      [TriggerAttack 0 1; SetFrequency 440; TriggerAttack 0.25 0.5;
       TriggerRelease 1] = Ok (_, _)) by (vm_compute; reflexivity).
  eexists _, _. split; [exact E|].
  destruct (triggers_reach_both_envelopes _ _ _ _ E) as (HC & HM & _).
  split; [exact HC | exact HM].
Defined.

Lemma modulator_pitch_is_frequency_times_harmonicity_witness :
  exists am g,
    session (H := bare) [VObj [("harmonicity", VNum 0.5)]] [SetFrequency 220]
      = Ok (am, g) /\
    exists pm,
      input (fun _ => 0) g (Synth.frequency (_modulator am)) = Some pm /\
      pm == 110.
Proof.
  eassert (E : session (H := bare) [VObj [("harmonicity", VNum 0.5)]]
                 [SetFrequency 220] = Ok (_, _)) by (vm_compute; reflexivity).
  eexists _, _. split; [exact E|].
  destruct (proj1 (modulator_pitch_is_frequency_times_harmonicity (H := bare))
              _ _ _ _ (fun _ => 0) E)
    as (_ & _ & _ & f & h & pc & pm & Hf & Hh & Hc & Ec & Hm & Em).
  exists pm. split; [exact Hm|].
  vm_compute in Hf, Hh. injection Hf as <-. injection Hh as <-.
  rewrite Em. reflexivity.
Defined.

(** C2. The scaling stage sits between the modulator's audio output and
    the gain input of the modulation gain node, and nowhere else; it has no
    parameters and no call changes it.  For every modulator sample x the
    signal it delivers to that gain input is (x + 1) / 2, which lies in
    [0, 1] whenever x lies in [-1, 1]. *)
Theorem scaling_stage_maps_bipolar_to_unipolar `{Collaborators}
  (arguments : list value) (os : list op) (am : AMSynth) (g : graph)
  (audio : ref -> Q) :
  session arguments os = Ok (am, g) ->
  node_at g (_modulationScale am) = Some AudioToGain /\
  sources (_modulationScale am) (edges g) = [Synth.self (_modulator am)] /\
  sources (Gain.gain (_modulationNode am)) (edges g) = [_modulationScale am] /\
  (forall x : Q, scale x == (x + 1) / 2) /\
  exists y,
    input audio g (Gain.gain (_modulationNode am)) = Some y /\
    y == scale (audio (Synth.self (_modulator am))) /\
    (-1 <= audio (Synth.self (_modulator am)) <= 1 -> 0 <= y <= 1).
Proof.
  intros S. apply session_layout in S as (-> & c & -> & _ & _).
  split_and!; try reflexivity.
  destruct (layout_gain_input audio c) as (y & Hy & Ey).
  exists y. split_and!; [exact Hy | exact Ey |].
  cbn [handles _modulator Synth.self]. intros [Lo Hi].
  rewrite Ey, half. split; Lqa.lra.
Qed.

Lemma scaling_stage_maps_bipolar_to_unipolar_witness :
  exists am g,
    session (H := bare) [] [TriggerAttack 0 1] = Ok (am, g) /\
    exists y,
      input (fun _ => -1) g (Gain.gain (_modulationNode am)) = Some y /\
      y == 0.
Proof.
  eassert (E : session (H := bare) [] [TriggerAttack 0 1] = Ok (_, _))
    by (vm_compute; reflexivity).
  eexists _, _. split; [exact E|].
  destruct (scaling_stage_maps_bipolar_to_unipolar _ _ _ _ (fun _ => -1) E)
    as (_ & _ & _ & _ & y & Hy & Ey & _).
  exists y. split; [exact Hy|]. rewrite Ey. reflexivity.
Defined.

(** C7. The detune control is connected, with nothing in between, to the
    detune input of the carrier and to the detune input of the modulator:
    whatever value d it holds, both sub-voices receive d.  With d = 1200
    cents the pitch either sub-voice sounds is exactly twice the pitch it
    sounds without detune, for any base frequency. *)
Theorem detune_reaches_both_voices_unscaled `{Collaborators}
  (arguments : list value) (os : list op) (am : AMSynth) (g : graph)
  (audio : ref -> Q) :
  session arguments os = Ok (am, g) ->
  sources (Synth.detune (_carrier am)) (edges g) = [detune am] /\
  sources (Synth.detune (_modulator am)) (edges g) = [detune am] /\
  exists d dc dm,
    value_at g (detune am) = Some d /\
    input audio g (Synth.detune (_carrier am)) = Some dc /\ dc == d /\
    input audio g (Synth.detune (_modulator am)) = Some dm /\ dm == d /\
    (d == 1200 ->
     forall base : Q,
       effective_pitch base dc = (2 * effective_pitch base 0)%R /\
       effective_pitch base dm = (2 * effective_pitch base 0)%R).
Proof.
  intros S. apply session_layout in S as (-> & c & -> & _ & _).
  split_and!; try reflexivity.
  destruct (layout_detune_inputs audio c) as (dc & dm & Hc & Ec & Hm & Em).
  exists (c_detune c), dc, dm.
  split_and!; try reflexivity; try assumption.
  intros E base. split; apply one_octave.
  - by rewrite Ec.
  - by rewrite Em.
Qed.

Lemma detune_reaches_both_voices_unscaled_witness :
  exists am g,
    session (H := bare) [] [SetFrequency 440; SetDetune 1200] = Ok (am, g) /\
    exists dc dm,
      input (fun _ => 0) g (Synth.detune (_carrier am)) = Some dc /\
      input (fun _ => 0) g (Synth.detune (_modulator am)) = Some dm /\
      effective_pitch 440 dc = (2 * effective_pitch 440 0)%R /\
      effective_pitch 1320 dm = (2 * effective_pitch 1320 0)%R.
Proof.
  eassert (E : session (H := bare) [] [SetFrequency 440; SetDetune 1200]
                 = Ok (_, _)) by (vm_compute; reflexivity).
  eexists _, _. split; [exact E|].
  destruct (detune_reaches_both_voices_unscaled _ _ _ _ (fun _ => 0) E)
    as (_ & _ & d & dc & dm & Hd & Hc & Ec & Hm & Em & Oct).
  exists dc, dm. vm_compute in Hd. injection Hd as <-.
  split_and!; [exact Hc | exact Hm | |].
  - apply (Oct ltac:(reflexivity) 440).
  - apply (Oct ltac:(reflexivity) 1320).
Defined.

(** C9. The gain of the modulation gain node is created with value 0 and
    no call of the voice sets it.  With nothing driving that gain the node
    fully attenuates the carrier: the voice's output is 0 whatever the
    carrier puts out.  Once driven, the gain is exactly the scaled
    modulator signal, with no offset, and the output is the carrier's
    sample times it. *)
Theorem modulation_gain_starts_at_zero `{Collaborators}
  (arguments : list value) (os : list op) (am : AMSynth) (g : graph)
  (audio : ref -> Q) :
  session arguments os = Ok (am, g) ->
  node_at g (Gain.self (_modulationNode am))
    = Some (Gain (Gain.gain (_modulationNode am))) /\
  value_at g (Gain.gain (_modulationNode am)) = Some 0 /\
  sources (Gain.self (_modulationNode am)) (edges g)
    = [Synth.self (_carrier am)] /\
  sources (output am) (edges g) = [Gain.self (_modulationNode am)] /\
  (exists o,
      signal audio (undriven (Gain.gain (_modulationNode am)) g) (output am)
        = Some o /\ o == 0) /\
  (exists o,
      signal audio g (output am) = Some o /\
      o == audio (Synth.self (_carrier am))
           * scale (audio (Synth.self (_modulator am)))).
Proof.
  intros S. apply session_layout in S as (-> & c & -> & _ & _).
  split_and!; try reflexivity.
  - apply layout_output_undriven.
  - apply layout_output.
Qed.

Lemma modulation_gain_starts_at_zero_witness :
  exists am g,
    session (H := bare) [] [] = Ok (am, g) /\
    value_at g (Gain.gain (_modulationNode am)) = Some 0 /\
    exists o,
      signal (fun _ => 1) (undriven (Gain.gain (_modulationNode am)) g)
        (output am) = Some o /\ o == 0.
Proof.
  eassert (E : session (H := bare) [] [] = Ok (_, _))
    by (vm_compute; reflexivity).
  eexists _, _. split; [exact E|].
  destruct (modulation_gain_starts_at_zero _ _ _ _ (fun _ => 1) E)
    as (_ & Hv & _ & _ & Hu & _).
  split; [exact Hv | exact Hu].
Defined.

(** *** Disposal in the layout *)

Lemma session_disposals `{Collaborators} (arguments : list value)
  (os : list op) (c : contents) :
  after_all os (fresh (optionsFromArguments getDefaults arguments)) = Ok c ->
  c_disposals c = fun _ => 0%nat.
Proof. intros E. apply after_all_disposals in E. exact E. Qed.

(** C4, as the code has it.  [dispose] installs no guard and the triggers
    test none: on a voice that has been disposed, an attack or a release
    trigger returns normally and is forwarded to both sub-voices' envelopes
    with the same arguments, exactly as on a live voice; the voice itself
    never fails with UseAfterDispose. *)
Theorem triggers_carry_no_disposal_guard `{Collaborators}
  (arguments : list value) (os : list op) (am : AMSynth) (g : graph) :
  session arguments os = Ok (am, g) ->
  exists g1,
    dispose am g = Ok (am, g1) /\
    disposals_at g1 (this am) = Some 1%nat /\
    forall (time : Seconds) (velocity : Q),
      (exists g2,
          _triggerEnvelopeAttack am time velocity g1 = Ok (tt, g2) /\
          log_at g2 (Synth.envelope (_carrier am))
            = Some (triggers os ++ [Attack time velocity]) /\
          log_at g2 (Synth.envelope (_modulator am))
            = Some (triggers os ++ [Attack time velocity])) /\
      (exists g2,
          _triggerEnvelopeRelease am time g1 = Ok (am, g2) /\
          log_at g2 (Synth.envelope (_carrier am))
            = Some (triggers os ++ [Release time]) /\
          log_at g2 (Synth.envelope (_modulator am))
            = Some (triggers os ++ [Release time])).
Proof.
  intros S. apply session_layout in S as (-> & c & -> & _ & E).
  pose proof (session_disposals _ _ _ E) as D.
  apply after_all_logs in E as [EC EM]. cbn in EC, EM.
  eexists. split; [apply dispose_layout|]. split.
  - cbn. by rewrite D.
  - intros time velocity. split; eexists; (split; [reflexivity|]);
      cbn; rewrite ?EC, ?EM; done.
Qed.

Lemma triggers_carry_no_disposal_guard_witness :
  exists am g g1 g2,
    session (H := bare) [] [TriggerAttack 0 1] = Ok (am, g) /\
    dispose am g = Ok (am, g1) /\
    _triggerEnvelopeRelease am 2 g1 = Ok (am, g2) /\
    log_at g2 (Synth.envelope (_modulator am))
      = Some [Attack 0 1; Release 2].
Proof.
  eassert (E : session (H := bare) [] [TriggerAttack 0 1] = Ok (_, _))
    by (vm_compute; reflexivity).
  destruct (triggers_carry_no_disposal_guard _ _ _ _ E)
    as (g1 & D & _ & T).
  destruct (T 2 1) as (_ & g2 & R & _ & LM).
  eexists _, _, g1, g2. split_and!; [exact E | exact D | exact R | exact LM].
Defined.

(** C4, as the spec states it, fails: a default voice is built and
    disposed, and an attack trigger on it returns normally, having reached
    the carrier's envelope, instead of failing with UseAfterDispose. *)
Lemma trigger_on_disposed_voice_is_accepted :
  exists am g g1 g2,
    session (H := bare) [] [] = Ok (am, g) /\
    dispose am g = Ok (am, g1) /\
    disposals_at g1 (this am) = Some 1%nat /\
    _triggerEnvelopeAttack am 0 1 g1 = Ok (tt, g2) /\
    _triggerEnvelopeAttack am 0 1 g1 <> Throw UseAfterDispose /\
    log_at g2 (Synth.envelope (_carrier am)) = Some [Attack 0 1].
Proof.
  eexists _, _, _, _.
  split; [vm_compute; reflexivity|].
  split; [vm_compute; reflexivity|].
  split; [vm_compute; reflexivity|].
  split; [vm_compute; reflexivity|].
  split; [discriminate | vm_compute; reflexivity].
Qed.

(** C8, as the code has it.  [dispose] never throws, on a first or on a
    second call.  One call releases each distinct owned resource (carrier,
    modulator, frequency, detune, harmonicity, scaling stage, modulation
    gain node) exactly once; a second call carries no guard and releases
    each of them once more. *)
Theorem dispose_releases_each_resource_once_per_call `{Collaborators}
  (arguments : list value) (os : list op) (am : AMSynth) (g : graph) :
  session arguments os = Ok (am, g) ->
  NoDup (owned_resources am) /\
  exists g1 g2,
    dispose am g = Ok (am, g1) /\
    dispose am g1 = Ok (am, g2) /\
    Forall (fun r =>
              disposals_at g r = Some 0%nat /\
              disposals_at g1 r = Some 1%nat /\
              disposals_at g2 r = Some 2%nat)
           (owned_resources am).
Proof.
  intros S. apply session_layout in S as (-> & c & -> & _ & E).
  pose proof (session_disposals _ _ _ E) as D.
  split.
  - cbn. compute_done.
  - eexists _, _. split; [apply dispose_layout|].
    split; [apply dispose_layout|].
    destruct c; cbn in D; subst. cbn. repeat constructor.
Qed.

Lemma dispose_releases_each_resource_once_per_call_witness :
  exists am g g1 g2,
    session (H := bare) [] [TriggerAttack 0 1; TriggerRelease 1]
      = Ok (am, g) /\
    dispose am g = Ok (am, g1) /\
    dispose am g1 = Ok (am, g2) /\
    disposals_at g1 (harmonicity am) = Some 1%nat /\
    disposals_at g2 (harmonicity am) = Some 2%nat.
Proof.
  eassert (E : session (H := bare) [] [TriggerAttack 0 1; TriggerRelease 1]
                 = Ok (_, _)) by (vm_compute; reflexivity).
  destruct (dispose_releases_each_resource_once_per_call _ _ _ _ E)
    as (_ & g1 & g2 & D1 & D2 & F).
  eexists _, _, g1, g2. split_and!; [exact E | exact D1 | exact D2 | |].
  - apply (Forall_lookup_1 _ _ 4%nat _ F eq_refl).
  - apply (Forall_lookup_1 _ _ 4%nat _ F eq_refl).
Defined.

(** C8, as the spec states it, fails: after two calls of [dispose] on a
    default voice the carrier has been released twice, not once. *)
Lemma second_dispose_releases_again :
  exists am g g1 g2,
    session (H := bare) [] [] = Ok (am, g) /\
    dispose am g = Ok (am, g1) /\
    dispose am g1 = Ok (am, g2) /\
    disposals_at g2 (Synth.self (_carrier am)) = Some 2%nat /\
    disposals_at g2 (Synth.self (_carrier am)) <> Some 1%nat.
Proof.
  eexists _, _, _, _.
  split; [vm_compute; reflexivity|].
  split; [vm_compute; reflexivity|].
  split; [vm_compute; reflexivity|].
  split; [vm_compute; reflexivity | vm_compute; discriminate].
Qed.

(** *** The range of the harmonicity control *)

Lemma Multiply_accepts_nonneg (v : Q) : Multiply_accepts v = true <-> 0 <= v.
Proof. apply Qle_bool_iff. Qed.

Lemma Multiply_rejects_negative (v : Q) : v < 0 -> Multiply_accepts v = false.
Proof.
  intros N. destruct (Multiply_accepts v) eqn:E; [|reflexivity].
  apply Multiply_accepts_nonneg in E. Lqa.lra.
Qed.

Lemma harmonicity_option `{Collaborators} (h : Q) :
  Obj.num "harmonicity" 0
    (optionsFromArguments getDefaults [VObj [("harmonicity", VNum h)]]) = h.
Proof.
  cbn [optionsFromArguments deepMerge]. unfold Obj.num.
  rewrite get_set_eq.
  destruct (Obj.get "harmonicity" getDefaults); reflexivity.
Qed.

(** C5. A value assigned to the harmonicity control is accepted exactly
    when it is non-negative: a negative value is rejected at the moment of
    assignment, at construction as at any later time, and the control keeps
    holding a non-negative value through every sequence of calls. *)
Theorem harmonicity_rejects_negative_values `{Collaborators} :
  (forall h : Q,
      h < 0 ->
      constructor [VObj [("harmonicity", VNum h)]] empty_graph
        = Throw InvalidConfiguration) /\
  (forall (arguments : list value) (os : list op) (am : AMSynth) (g : graph),
      session arguments os = Ok (am, g) ->
      (exists h, value_at g (harmonicity am) = Some h /\ 0 <= h) /\
      forall v : Q,
        (v < 0 ->
         step am (SetHarmonicity v) g = Throw InvalidConfiguration) /\
        (0 <= v ->
         exists g',
           step am (SetHarmonicity v) g = Ok (tt, g') /\
           value_at g' (harmonicity am) = Some v)).
Proof.
  split.
  - intros h N. rewrite constructor_layout. cbv zeta.
    rewrite harmonicity_option.
    by rewrite (Multiply_rejects_negative _ N).
  - intros arguments os am g S.
    apply session_layout in S as (-> & c & -> & A & E).
    split.
    + exists (c_harmonicity c). split; [reflexivity|].
      apply Multiply_accepts_nonneg.
      exact (after_all_harmonicity _ _ _ E A).
    + intros v. rewrite step_layout. cbn [after]. split.
      * intros N. by rewrite (Multiply_rejects_negative _ N).
      * intros P. apply Multiply_accepts_nonneg in P. rewrite P.
        eexists. split; reflexivity.
Qed.

Lemma harmonicity_rejects_negative_values_witness :
  constructor (H := bare) [VObj [("harmonicity", VNum (-1))]] empty_graph
    = Throw InvalidConfiguration /\
  exists am g,
    session (H := bare) [] [SetHarmonicity 0.5] = Ok (am, g) /\
    step am (SetHarmonicity (-2)) g = Throw InvalidConfiguration /\
    exists g',
      step am (SetHarmonicity 2) g = Ok (tt, g') /\
      value_at g' (harmonicity am) = Some 2.
Proof.
  split.
  - apply (proj1 (harmonicity_rejects_negative_values (H := bare)) (-1)).
    reflexivity.
  - eassert (E : session (H := bare) [] [SetHarmonicity 0.5] = Ok (_, _))
      by (vm_compute; reflexivity).
    eexists _, _. split; [exact E|].
    destruct (proj2 (harmonicity_rejects_negative_values (H := bare))
                _ _ _ _ E) as (_ & V).
    split.
    + apply (proj1 (V (-2))). reflexivity.
    + apply (proj2 (V 2)). discriminate.
Defined.

(** *** Partial options *)

Lemma deepMerge_keeps_omitted (k : string) (given target : object) :
  Obj.get k given = None ->
  exists merged,
    deepMerge (VObj target) (VObj given) = VObj merged /\
    Obj.get k merged = Obj.get k target.
Proof.
  revert target. induction given as [|[k1 gv] given IH]; intros target N.
  - exists target. split; reflexivity.
  - cbn in N. destruct (String.eqb k k1) eqn:E; [discriminate|].
    destruct (IH (Obj.set k1
                    (match Obj.get k1 target with
                     | Some tv => deepMerge tv gv
                     | None => gv
                     end) target) N) as (merged & M & G).
    exists merged. split; [exact M|].
    rewrite G. by apply get_set_ne.
Qed.

(** C6. [getDefaults] gives harmonicity 3, a sine carrier oscillator, a
    carrier envelope with attack 0.01, decay 0.01, sustain 1 and release
    0.5, a square modulator oscillator and a modulator envelope with attack
    0.5, decay 0.0, sustain 1 and release 0.5, whatever the base classes
    contribute.  A voice constructed with no options is built from exactly
    these, and an option the caller leaves out keeps its default. *)
Theorem construction_defaults `{Collaborators} :
  Obj.get "harmonicity" getDefaults = Some (VNum 3) /\
  Obj.path ["oscillator"; "type"] (VObj getDefaults) = Some (VStr "sine") /\
  Obj.path ["envelope"; "attack"] (VObj getDefaults) = Some (VNum 0.01) /\
  Obj.path ["envelope"; "decay"] (VObj getDefaults) = Some (VNum 0.01) /\
  Obj.path ["envelope"; "sustain"] (VObj getDefaults) = Some (VNum 1) /\
  Obj.path ["envelope"; "release"] (VObj getDefaults) = Some (VNum 0.5) /\
  Obj.path ["modulation"; "type"] (VObj getDefaults)
    = Some (VStr "square") /\
  Obj.path ["modulationEnvelope"; "attack"] (VObj getDefaults)
    = Some (VNum 0.5) /\
  Obj.path ["modulationEnvelope"; "decay"] (VObj getDefaults)
    = Some (VNum 0.0) /\
  Obj.path ["modulationEnvelope"; "sustain"] (VObj getDefaults)
    = Some (VNum 1) /\
  Obj.path ["modulationEnvelope"; "release"] (VObj getDefaults)
    = Some (VNum 0.5) /\
  (exists (am : AMSynth) (g : graph),
      constructor [] empty_graph = Ok (am, g) /\
      value_at g (harmonicity am) = Some 3 /\
      shape_at g (oscillator am) "type" = Some (VStr "sine") /\
      shape_at g (envelope am) "attack" = Some (VNum 0.01) /\
      shape_at g (envelope am) "decay" = Some (VNum 0.01) /\
      shape_at g (envelope am) "sustain" = Some (VNum 1) /\
      shape_at g (envelope am) "release" = Some (VNum 0.5) /\
      shape_at g (modulation am) "type" = Some (VStr "square") /\
      shape_at g (modulationEnvelope am) "attack" = Some (VNum 0.5) /\
      shape_at g (modulationEnvelope am) "decay" = Some (VNum 0.0) /\
      shape_at g (modulationEnvelope am) "sustain" = Some (VNum 1) /\
      shape_at g (modulationEnvelope am) "release" = Some (VNum 0.5)) /\
  (forall (k : string) (given : object),
      Obj.get k given = None ->
      Obj.get k (optionsFromArguments getDefaults [VObj given])
        = Obj.get k getDefaults).
Proof.
  split_and!; try solve [default_lookup].
  - eexists handles, (layout _). split.
    + rewrite constructor_layout, no_arguments. cbv zeta.
      unfold Obj.num at 1. rewrite getDefaults_harmonicity. reflexivity.
    + unfold shape_at. cbn -[getDefaults Obj.path]. unfold Obj.num, Obj.sub.
      rewrite getDefaults_harmonicity.
      split_and!; try reflexivity; default_lookup.
  - intros k given N.
    destruct (deepMerge_keeps_omitted k given getDefaults N)
      as (merged & M & G).
    unfold optionsFromArguments. by rewrite M.
Qed.

Lemma construction_defaults_witness :
  Obj.get "harmonicity" [("oscillator", VObj [("type", VStr "sawtooth")])]
    = None /\
  Obj.get "harmonicity"
    (optionsFromArguments (getDefaults (H := bare))
       [VObj [("oscillator", VObj [("type", VStr "sawtooth")])]])
    = Some (VNum 3).
Proof.
  split; [reflexivity|].
  destruct (construction_defaults (H := bare))
    as (D & _ & _ & _ & _ & _ & _ & _ & _ & _ & _ & _ & K).
  rewrite (K "harmonicity"
             [("oscillator", VObj [("type", VStr "sawtooth")])] eq_refl).
  exact D.
Defined.

(** C10. The published [oscillator], [envelope], [modulation] and
    [modulationEnvelope] are the very objects the carrier and the modulator
    hold as their oscillator and envelope: four distinct objects, each
    published under the reference its sub-voice keeps.  A shape parameter
    written through a published field is read back from the sub-voice's
    own object, and the other three objects are left as they were. *)
Theorem published_parts_alias_the_sub_voices `{Collaborators}
  (arguments : list value) (os : list op) (am : AMSynth) (g : graph) :
  session arguments os = Ok (am, g) ->
  oscillator am = Synth.oscillator (_carrier am) /\
  envelope am = Synth.envelope (_carrier am) /\
  modulation am = Synth.oscillator (_modulator am) /\
  modulationEnvelope am = Synth.envelope (_modulator am) /\
  NoDup [oscillator am; envelope am; modulation am; modulationEnvelope am] /\
  forall (w : part) (k : string) (v : value),
  exists o g',
    options_at g (owned am w) = Some o /\
    options_at g (published am w) = Some o /\
    step am (SetShape w k v) g = Ok (tt, g') /\
    options_at g' (owned am w) = Some (put_shape k v o) /\
    shape_at g' (owned am w) k = Some v /\
    forall w' : part,
      w' <> w -> options_at g' (owned am w') = options_at g (owned am w').
Proof.
  intros S. apply session_layout in S as (-> & c & -> & _ & _).
  split_and!; try reflexivity; [cbn; compute_done|].
  intros w k v. rewrite step_layout. cbn [after].
  destruct w; eexists _, _;
    (split_and!; [reflexivity | reflexivity | reflexivity | reflexivity | |]).
  all: try (intros w' N; destruct w'; try reflexivity; by destruct N).
  all: unfold shape_at; cbn -[Obj.set Obj.get].
  all: match goal with
       | |- context [put_shape _ _ ?o] =>
           destruct o; cbn -[Obj.set];
           rewrite ?get_set_eq, ?String.eqb_refl; reflexivity
       end.
Qed.

Lemma published_parts_alias_the_sub_voices_witness :
  exists am g g',
    session (H := bare) [] [] = Ok (am, g) /\
    step am (SetShape Envelope "attack" (VNum 0.2)) g = Ok (tt, g') /\
    shape_at g (Synth.envelope (_carrier am)) "attack" = Some (VNum 0.01) /\
    shape_at g' (Synth.envelope (_carrier am)) "attack" = Some (VNum 0.2) /\
    shape_at g' (Synth.envelope (_modulator am)) "attack" = Some (VNum 0.5).
Proof.
  eassert (E : session (H := bare) [] [] = Ok (_, _))
    by (vm_compute; reflexivity).
  destruct (published_parts_alias_the_sub_voices _ _ _ _ E)
    as (_ & _ & _ & _ & _ & W).
  destruct (W Envelope "attack" (VNum 0.2)) as (o & g' & _ & _ & St & _ & Sh & Oth).
  eexists _, _, g'. split_and!; [exact E | exact St | reflexivity | exact Sh |].
  pose proof (Oth ModulationEnvelope ltac:(discriminate)) as O.
  unfold shape_at. cbv [owned _modulator Synth.envelope] in O |- *.
  rewrite O. reflexivity.
Defined.

(** * Further properties of the constructor, the defaults and the triggers *)

(** X1. The routing is fixed at construction.  After any sequence of
    calls the store still holds the eighteen cells the constructor
    allocated and exactly the nine connections it made, in the order it
    made them; every connection joins two allocated cells. *)
Theorem wiring_is_fixed_at_construction `{Collaborators}
  (arguments : list value) (os : list op) (am : AMSynth) (g : graph) :
  session arguments os = Ok (am, g) ->
  length (heap g) = 18%nat /\
  edges g =
    [ (frequency am, Synth.frequency (_carrier am));
      (frequency am, harmonicity am);
      (harmonicity am, Synth.frequency (_modulator am));
      (detune am, Synth.detune (_carrier am));
      (detune am, Synth.detune (_modulator am));
      (Synth.self (_modulator am), _modulationScale am);
      (_modulationScale am, Gain.gain (_modulationNode am));
      (Synth.self (_carrier am), Gain.self (_modulationNode am));
      (Gain.self (_modulationNode am), output am) ] /\
  Forall (fun e => (fst e < length (heap g))%nat /\
                   (snd e < length (heap g))%nat) (edges g).
Proof.
  intros S. apply session_layout in S as (-> & c & -> & _ & _).
  split_and!; [reflexivity | reflexivity |].
  cbn. repeat constructor; cbn; lia.
Qed.

Lemma wiring_is_fixed_at_construction_witness :
  exists am g,
    session (H := bare) [VObj [("harmonicity", VNum 2)]]
      [SetFrequency 220; TriggerAttack 0 1; SetHarmonicity 1; TriggerRelease 1]
      = Ok (am, g) /\
    length (heap g) = 18%nat /\ length (edges g) = 9%nat.
Proof.
  eassert (E : session (H := bare) [VObj [("harmonicity", VNum 2)]]
      [SetFrequency 220; TriggerAttack 0 1; SetHarmonicity 1; TriggerRelease 1]
      = Ok (_, _)) by (vm_compute; reflexivity).
  eexists _, _. split; [exact E|].
  destruct (wiring_is_fixed_at_construction _ _ _ _ E) as (L & W & _).
  split; [exact L|]. rewrite W. reflexivity.
Defined.

(** X2. The constructor creates sixteen distinct objects and no call
    changes what kind of object a reference leads to: both sub-voices keep
    their -10 volume, [frequency] stays a signal in units of frequency,
    [detune] a signal in cents, [harmonicity] a multiplier, the modulation
    node a gain node on its own gain parameter, the scaling stage an
    AudioToGain, and the four published parts oscillators and envelopes. *)
Theorem handles_resolve_to_their_kinds `{Collaborators}
  (arguments : list value) (os : list op) (am : AMSynth) (g : graph) :
  session arguments os = Ok (am, g) ->
  NoDup [ Synth.oscillator (_carrier am); Synth.envelope (_carrier am);
          Synth.frequency (_carrier am); Synth.detune (_carrier am);
          Synth.self (_carrier am);
          Synth.oscillator (_modulator am); Synth.envelope (_modulator am);
          Synth.frequency (_modulator am); Synth.detune (_modulator am);
          Synth.self (_modulator am);
          frequency am; detune am; harmonicity am;
          Gain.gain (_modulationNode am); Gain.self (_modulationNode am);
          _modulationScale am ] /\
  node_at g (Synth.self (_carrier am)) = Some (SynthVoice (-10)) /\
  node_at g (Synth.self (_modulator am)) = Some (SynthVoice (-10)) /\
  (exists f, node_at g (frequency am) = Some (Signal "frequency" f)) /\
  (exists d, node_at g (detune am) = Some (Signal "cents" d)) /\
  (exists h, node_at g (harmonicity am) = Some (Multiply h)) /\
  node_at g (Gain.self (_modulationNode am))
    = Some (Gain (Gain.gain (_modulationNode am))) /\
  node_at g (_modulationScale am) = Some AudioToGain /\
  (exists o, node_at g (oscillator am) = Some (OmniOscillator o)) /\
  (exists o l, node_at g (envelope am) = Some (AmplitudeEnvelope o l)) /\
  (exists o, node_at g (modulation am) = Some (OmniOscillator o)) /\
  (exists o l,
      node_at g (modulationEnvelope am) = Some (AmplitudeEnvelope o l)).
Proof.
  intros S. apply session_layout in S as (-> & c & -> & _ & _).
  split_and!; try reflexivity; try (cbn; compute_done); cbn; eauto.
Qed.

Lemma handles_resolve_to_their_kinds_witness :
  exists am g,
    session (H := bare) [] [SetDetune 50; SetShape Modulation "type" (VStr "sine")]
      = Ok (am, g) /\
    node_at g (detune am) = Some (Signal "cents" 50) /\
    node_at g (Synth.self (_carrier am)) = Some (SynthVoice (-10)).
Proof.
  eassert (E : session (H := bare) []
                 [SetDetune 50; SetShape Modulation "type" (VStr "sine")]
                 = Ok (_, _)) by (vm_compute; reflexivity).
  eexists _, _. split; [exact E|].
  destruct (handles_resolve_to_their_kinds _ _ _ _ E)
    as (_ & K & _).
  split; [reflexivity | exact K].
Defined.

(** X3. The constructor hands [options.oscillator] and
    [options.envelope] to the carrier and [options.modulation] and
    [options.modulationEnvelope] to the modulator, never crossed; a numeric
    [options.harmonicity] becomes the factor of the harmonicity control and
    a numeric [options.detune] the value of the detune control.  A new
    voice's envelopes have received no trigger and nothing in its store has
    been released. *)
Theorem options_reach_their_sub_voice `{Collaborators}
  (arguments : list value) (am : AMSynth) (g : graph) :
  constructor arguments empty_graph = Ok (am, g) ->
  let options := optionsFromArguments getDefaults arguments in
  options_at g (Synth.oscillator (_carrier am))
    = Some (Obj.sub "oscillator" options) /\
  options_at g (Synth.envelope (_carrier am))
    = Some (Obj.sub "envelope" options) /\
  options_at g (Synth.oscillator (_modulator am))
    = Some (Obj.sub "modulation" options) /\
  options_at g (Synth.envelope (_modulator am))
    = Some (Obj.sub "modulationEnvelope" options) /\
  (forall h, Obj.get "harmonicity" options = Some (VNum h) ->
             value_at g (harmonicity am) = Some h) /\
  (forall d, Obj.get "detune" options = Some (VNum d) ->
             value_at g (detune am) = Some d) /\
  log_at g (envelope am) = Some [] /\
  log_at g (modulationEnvelope am) = Some [] /\
  Forall (fun c => disposals c = 0%nat) (heap g).
Proof.
  rewrite constructor_layout. cbv zeta.
  destruct (Multiply_accepts _); [|discriminate].
  intros [= <- <-].
  split_and!; try reflexivity.
  - intros h E.
    change (Some (Obj.num "harmonicity" 0
                    (optionsFromArguments getDefaults arguments)) = Some h).
    unfold Obj.num. by rewrite E.
  - intros d E.
    change (Some (Obj.num "detune" 0
                    (optionsFromArguments getDefaults arguments)) = Some d).
    unfold Obj.num. by rewrite E.
  - cbn. repeat constructor.
Qed.

Lemma options_reach_their_sub_voice_witness :
  exists am g,
    constructor (H := bare)
      [VObj [("modulation", VObj [("type", VStr "triangle")]);
             ("detune", VNum 7)]] empty_graph = Ok (am, g) /\
    shape_at g (Synth.oscillator (_modulator am)) "type"
      = Some (VStr "triangle") /\
    shape_at g (Synth.oscillator (_carrier am)) "type" = Some (VStr "sine") /\
    value_at g (detune am) = Some 7.
Proof.
  eassert (E : constructor (H := bare)
      [VObj [("modulation", VObj [("type", VStr "triangle")]);
             ("detune", VNum 7)]] empty_graph = Ok (_, _))
    by (vm_compute; reflexivity).
  eexists _, _. split; [exact E|].
  destruct (options_reach_their_sub_voice _ _ _ E)
    as (OC & _ & OM & _ & _ & D & _).
  unfold shape_at. rewrite OM, OC.
  split_and!; [reflexivity | reflexivity |].
  apply D. reflexivity.
Defined.

(** *** Lookups under a symbolic key *)

Lemma get_set_other (k k' : string) (v : value) (o : object) :
  k <> k' -> Obj.get k (Obj.set k' v o) = Obj.get k o.
Proof. intros N. apply get_set_ne. by apply String.eqb_neq. Qed.

Lemma path_two (a k : string) (o : object) :
  Obj.path [a; k] (VObj o) =
  match Obj.get a o with
  | Some (VObj o') => Obj.get k o'
  | _ => None
  end.
Proof.
  cbn. destruct (Obj.get a o) as [[| | |o']|]; try reflexivity.
  by destruct (Obj.get k o').
Qed.

Section DefaultBags.
Context `{Collaborators}.

Lemma getDefaults_oscillator :
  Obj.get "oscillator" getDefaults
  = Some (VObj (Obj.set "type" (VStr "sine")
                  (omitFromObject OmniOscillator_getDefaults
                     (Obj.keys Source_getDefaults
                        ++ ["frequency"; "detune"])))).
Proof. default_lookup. Qed.

Lemma getDefaults_modulation :
  Obj.get "modulation" getDefaults
  = Some (VObj (Obj.set "type" (VStr "square")
                  (omitFromObject OmniOscillator_getDefaults
                     (Obj.keys Source_getDefaults
                        ++ ["frequency"; "detune"])))).
Proof. default_lookup. Qed.

Lemma getDefaults_envelope :
  Obj.get "envelope" getDefaults
  = Some (VObj (Obj.set "release" (VNum 0.5)
                  (Obj.set "sustain" (VNum 1)
                     (Obj.set "decay" (VNum 0.01)
                        (Obj.set "attack" (VNum 0.01)
                           (omitFromObject Envelope_getDefaults
                              (Obj.keys ToneAudioNode_getDefaults))))))).
Proof. default_lookup. Qed.

Lemma getDefaults_modulationEnvelope :
  Obj.get "modulationEnvelope" getDefaults
  = Some (VObj (Obj.set "release" (VNum 0.5)
                  (Obj.set "sustain" (VNum 1)
                     (Obj.set "decay" (VNum 0.0)
                        (Obj.set "attack" (VNum 0.5)
                           (omitFromObject Envelope_getDefaults
                              (Obj.keys ToneAudioNode_getDefaults))))))).
Proof. default_lookup. Qed.

End DefaultBags.

Ltac default_bag :=
  rewrite !path_two;
  rewrite ?getDefaults_oscillator, ?getDefaults_modulation,
    ?getDefaults_envelope, ?getDefaults_modulationEnvelope.

(** X4. [getDefaults] keeps every default of the [Monophonic] base
    class except under the five keys it assigns itself. *)
Theorem getDefaults_keeps_base_defaults `{Collaborators} (k : string) :
  ~ In k ["harmonicity"; "oscillator"; "envelope"; "modulation";
          "modulationEnvelope"] ->
  Obj.get k getDefaults = Obj.get k Monophonic_getDefaults.
Proof.
  intros N. unfold getDefaults, Obj.assign. cbn [fold_left fst snd].
  rewrite !get_set_other; [reflexivity|..];
    intros ->; apply N; cbn; tauto.
Qed.

Lemma getDefaults_keeps_base_defaults_witness :
  Obj.get "detune" (getDefaults (H := bare)) = Some (VNum 0).
Proof.
  rewrite (getDefaults_keeps_base_defaults (H := bare) "detune").
  - reflexivity.
  - cbn. intros [E|[E|[E|[E|[E|[]]]]]]; discriminate E.
Defined.

(** X5. Inside the default oscillator and modulation bags only [type] is
    set by [getDefaults], and inside the two default envelope bags only
    [attack], [decay], [sustain] and [release]: every other key holds what
    [omitFromObject] left of the collaborator's defaults. *)
Theorem nested_defaults_keep_trimmed_collaborator_defaults `{Collaborators}
  (k : string) :
  (k <> "type" ->
   Obj.path ["oscillator"; k] (VObj getDefaults)
     = Obj.get k (omitFromObject OmniOscillator_getDefaults
                    (Obj.keys Source_getDefaults ++ ["frequency"; "detune"]))
   /\
   Obj.path ["modulation"; k] (VObj getDefaults)
     = Obj.get k (omitFromObject OmniOscillator_getDefaults
                    (Obj.keys Source_getDefaults ++ ["frequency"; "detune"])))
  /\
  (~ In k ["attack"; "decay"; "sustain"; "release"] ->
   Obj.path ["envelope"; k] (VObj getDefaults)
     = Obj.get k (omitFromObject Envelope_getDefaults
                    (Obj.keys ToneAudioNode_getDefaults))
   /\
   Obj.path ["modulationEnvelope"; k] (VObj getDefaults)
     = Obj.get k (omitFromObject Envelope_getDefaults
                    (Obj.keys ToneAudioNode_getDefaults))).
Proof.
  split; intros N; split.
  all: default_bag.
  all: rewrite !get_set_other; [reflexivity|..];
    try assumption; intros ->; apply N; cbn; tauto.
Qed.

Lemma nested_defaults_keep_trimmed_collaborator_defaults_witness :
  Obj.path ["oscillator"; "frequency"] (VObj (getDefaults (H := bare)))
    = None /\
  Obj.path ["modulationEnvelope"; "attackCurve"]
    (VObj (getDefaults (H := bare))) = None.
Proof.
  split.
  - rewrite (proj1 (proj1 (nested_defaults_keep_trimmed_collaborator_defaults
                             (H := bare) "frequency")
                      ltac:(discriminate))).
    reflexivity.
  - rewrite (proj2 (proj2 (nested_defaults_keep_trimmed_collaborator_defaults
                             (H := bare) "attackCurve")
                      ltac:(cbn; intros [E|[E|[E|[E|[]]]]]; discriminate E))).
    reflexivity.
Defined.

(** X6. The carrier's and the modulator's defaults differ only where
    [getDefaults] says so: the two oscillator bags agree on every key but
    [type], the two envelope bags on every key but [attack] and
    [decay]. *)
Theorem carrier_and_modulator_defaults_differ_only_where_set `{Collaborators}
  (k : string) :
  (k <> "type" ->
   Obj.path ["oscillator"; k] (VObj getDefaults)
     = Obj.path ["modulation"; k] (VObj getDefaults)) /\
  (k <> "attack" -> k <> "decay" ->
   Obj.path ["envelope"; k] (VObj getDefaults)
     = Obj.path ["modulationEnvelope"; k] (VObj getDefaults)).
Proof.
  split.
  - intros N. default_bag.
    rewrite !get_set_other by assumption. reflexivity.
  - intros NA ND. default_bag.
    destruct (String.eqb_spec k "release") as [->|NR];
      [by rewrite !get_set_eq|].
    rewrite !(get_set_other k "release") by assumption.
    destruct (String.eqb_spec k "sustain") as [->|NS];
      [by rewrite !get_set_eq|].
    rewrite !get_set_other by assumption. reflexivity.
Qed.


Lemma carrier_and_modulator_defaults_differ_only_where_set_witness :
  Obj.path ["envelope"; "sustain"] (VObj (getDefaults (H := bare)))
    = Obj.path ["modulationEnvelope"; "sustain"]
        (VObj (getDefaults (H := bare))) /\
  Obj.path ["oscillator"; "phase"] (VObj (getDefaults (H := bare)))
    = Obj.path ["modulation"; "phase"] (VObj (getDefaults (H := bare))).
Proof.
  split.
  - apply (proj2 (carrier_and_modulator_defaults_differ_only_where_set
                    (H := bare) "sustain")); discriminate.
  - apply (proj1 (carrier_and_modulator_defaults_differ_only_where_set
                    (H := bare) "phase")); discriminate.
Defined.

(** X7. The three controls act on separate paths.  Setting the frequency
    leaves both detune inputs and the harmonicity as they were; setting the
    detune leaves both pitch inputs and the harmonicity as they were; an
    accepted change of harmonicity leaves the carrier's pitch input, both
    detune inputs and the frequency and detune values as they were. *)
Theorem controls_are_independent `{Collaborators}
  (arguments : list value) (os : list op) (am : AMSynth) (g : graph)
  (audio : ref -> Q) (x : Q) :
  session arguments os = Ok (am, g) ->
  (exists g',
      step am (SetFrequency x) g = Ok (tt, g') /\
      input audio g' (Synth.detune (_carrier am))
        = input audio g (Synth.detune (_carrier am)) /\
      input audio g' (Synth.detune (_modulator am))
        = input audio g (Synth.detune (_modulator am)) /\
      value_at g' (harmonicity am) = value_at g (harmonicity am)) /\
  (exists g',
      step am (SetDetune x) g = Ok (tt, g') /\
      input audio g' (Synth.frequency (_carrier am))
        = input audio g (Synth.frequency (_carrier am)) /\
      input audio g' (Synth.frequency (_modulator am))
        = input audio g (Synth.frequency (_modulator am)) /\
      value_at g' (harmonicity am) = value_at g (harmonicity am)) /\
  (forall g',
      step am (SetHarmonicity x) g = Ok (tt, g') ->
      input audio g' (Synth.frequency (_carrier am))
        = input audio g (Synth.frequency (_carrier am)) /\
      input audio g' (Synth.detune (_carrier am))
        = input audio g (Synth.detune (_carrier am)) /\
      input audio g' (Synth.detune (_modulator am))
        = input audio g (Synth.detune (_modulator am)) /\
      value_at g' (frequency am) = value_at g (frequency am) /\
      value_at g' (detune am) = value_at g (detune am)).
Proof.
  intros S. apply session_layout in S as (-> & c & -> & _ & _).
  split_and!.
  - eexists. split; [rewrite step_layout; reflexivity|].
    split_and!; reflexivity.
  - eexists. split; [rewrite step_layout; reflexivity|].
    split_and!; reflexivity.
  - intros g'. rewrite step_layout. cbn [after].
    destruct (Multiply_accepts x); [|discriminate].
    intros [= <-]. split_and!; reflexivity.
Qed.

Lemma controls_are_independent_witness :
  exists am g g',
    session (H := bare) [] [SetFrequency 440] = Ok (am, g) /\
    step am (SetHarmonicity 2) g = Ok (tt, g') /\
    input (fun _ => 0) g' (Synth.frequency (_carrier am))
      = input (fun _ => 0) g (Synth.frequency (_carrier am)) /\
    input (fun _ => 0) g' (Synth.frequency (_carrier am)) = Some 440.
Proof.
  eassert (E : session (H := bare) [] [SetFrequency 440] = Ok (_, _))
    by (vm_compute; reflexivity).
  eassert (St : step _ (SetHarmonicity 2) _ = Ok (tt, _))
    by (vm_compute; reflexivity).
  eexists _, _, _. split; [exact E|]. split; [exact St|].
  destruct (controls_are_independent _ _ _ _ (fun _ => 0) 2 E)
    as (_ & _ & Hm).
  destruct (Hm _ St) as (P & _).
  split; [exact P|]. rewrite P. vm_compute. reflexivity.
Defined.




(** X9. Harmonicity is the ratio between the two voices, as the field's
    documentation says: the modulator's pitch input is the carrier's times
    the harmonicity.  A harmonicity of 1 is no change, 2 puts the modulator
    where a detune of 1200 cents would put the carrier (an octave above),
    and 0.5 where a detune of -1200 cents would (an octave below). *)
Theorem harmonicity_is_the_ratio_of_the_two_pitches `{Collaborators}
  (arguments : list value) (os : list op) (am : AMSynth) (g : graph)
  (audio : ref -> Q) :
  session arguments os = Ok (am, g) ->
  exists h pc pm,
    value_at g (harmonicity am) = Some h /\
    input audio g (Synth.frequency (_carrier am)) = Some pc /\
    input audio g (Synth.frequency (_modulator am)) = Some pm /\
    pm == h * pc /\
    (h == 1 -> pm == pc) /\
    (h == 2 -> Q2R pm = effective_pitch pc 1200) /\
    (h == 0.5 -> Q2R pm = effective_pitch pc (-1200)).
Proof.
  intros S. apply session_layout in S as (-> & c & -> & _ & _).
  destruct (layout_pitch_inputs audio c) as (pc & pm & Hc & Ec & Hm & Em).
  exists (c_harmonicity c), pc, pm.
  assert (R : pm == c_harmonicity c * pc) by (rewrite Em, Ec; ring).
  split_and!; try assumption; try reflexivity.
  - intros E. rewrite R, E. ring.
  - intros E. unfold effective_pitch.
    replace (Q2R 1200 / 1200)%R with 1%R by (unfold Q2R; cbn; lra).
    rewrite Rpower_1 by lra.
    rewrite (Qeq_eqR _ _ R), Q2R_mult, (Qeq_eqR _ _ E).
    unfold Q2R at 1. cbn. lra.
  - intros E. unfold effective_pitch.
    replace (Q2R (-1200) / 1200)%R with (Ropp 1) by (unfold Q2R; cbn; lra).
    rewrite Rpower_Ropp, Rpower_1 by lra.
    rewrite (Qeq_eqR _ _ R), Q2R_mult, (Qeq_eqR _ _ E).
    unfold Q2R at 1. cbn. lra.
Qed.

Lemma harmonicity_is_the_ratio_of_the_two_pitches_witness :
  exists am g,
    session (H := bare) [] [SetHarmonicity 0.5; SetFrequency 440]
      = Ok (am, g) /\
    exists pc pm,
      input (fun _ => 0) g (Synth.frequency (_carrier am)) = Some pc /\
      input (fun _ => 0) g (Synth.frequency (_modulator am)) = Some pm /\
      Q2R pm = effective_pitch pc (-1200).
Proof.
  eassert (E : session (H := bare) [] [SetHarmonicity 0.5; SetFrequency 440]
                 = Ok (_, _)) by (vm_compute; reflexivity).
  eexists _, _. split; [exact E|].
  destruct (harmonicity_is_the_ratio_of_the_two_pitches _ _ _ _
              (fun _ => 0) E)
    as (h & pc & pm & Hh & Hc & Hm & _ & _ & _ & Oct).
  exists pc, pm. split_and!; [exact Hc | exact Hm |].
  apply Oct. vm_compute in Hh. injection Hh as <-. reflexivity.
Defined.
